(** * event-ease: the session store and the event collection store

  A shallow embedding of the two React contexts of the front-end,
  [AuthContext] and [EventsContext]: their reducers, and the asynchronous
  functions that dispatch actions around the calls to the remote API. *)

From stdpp Require Import base option list strings.

Set Default Proof Using "Type".

(** ** Asynchronous functions over a reducer store

  A JavaScript exception raised by a collaborator is an [Error] object of
  which the contexts read only [message]. *)

Record Error : Type := mkError { message : string }.

(** How an awaited promise settles. *)
Inductive Settled (A : Type) : Type :=
| Fulfilled (a : A)
| Rejected (e : Error).
Arguments Fulfilled {A} a.
Arguments Rejected {A} e.

(** What an asynchronous function of a provider can touch: the store that
  [useReducer] holds, the queue of the actions handed to [dispatch] (oldest
  first) and the lines written with [console.error]. *)
Record World (St Act : Type) : Type := mkWorld {
  store : St;
  dispatched : list Act;
  console : list (string * Error);
}.
Arguments mkWorld {St Act} store dispatched console.
Arguments store {St Act} w.
Arguments dispatched {St Act} w.
Arguments console {St Act} w.

Module Async.
Section Async.
Context {St Act : Type}.
Variable reducer : St → Act → St.

Definition t (A : Type) : Type := World St Act → World St Act * Settled A.

Definition ret {A} (a : A) : t A := λ w, (w, Fulfilled a).

Definition bind {A B} (m : t A) (k : A → t B) : t B := λ w,
  match m w with
  | (w', Fulfilled a) => k a w'
  | (w', Rejected e) => (w', Rejected e)
  end.

(** [throw error] *)
Definition throw {A} (e : Error) : t A := λ w, (w, Rejected e).

(** [await p] for a collaborator promise that settles as [p]. *)
Definition await {A} (p : Settled A) : t A := λ w, (w, p).

(** [dispatch(action)]: the store moves by the reducer. *)
Definition dispatch (a : Act) : t () := λ w,
  (mkWorld (reducer (store w) a) (dispatched w ++ [a]) (console w),
   Fulfilled ()).

(** [console.error(label, error)] *)
Definition console_error (label : string) (e : Error) : t () := λ w,
  (mkWorld (store w) (dispatched w) (console w ++ [(label, e)]),
   Fulfilled ()).

(** [try { body } catch (error) { handler }] *)
Definition try_catch {A} (body : t A) (handler : Error → t A) : t A := λ w,
  match body w with
  | (w', Fulfilled a) => (w', Fulfilled a)
  | (w', Rejected e) => handler e w'
  end.

(** [try { body } finally { cleanup }]: the cleanup runs on both exits and
    the completion of the body is kept unless the cleanup throws. *)
Definition try_finally {A} (body : t A) (cleanup : t ()) : t A := λ w,
  match body w with
  | (w', r) =>
      match cleanup w' with
      | (w'', Fulfilled _) => (w'', r)
      | (w'', Rejected e) => (w'', Rejected e)
      end
  end.

(** [try { body } catch (error) { handler } finally { cleanup }] *)
Definition try_catch_finally {A}
    (body : t A) (handler : Error → t A) (cleanup : t ()) : t A :=
  try_finally (try_catch body handler) cleanup.
End Async.
End Async.

Notation "x <~ m ;; k" := (Async.bind m (λ x, k))
  (at level 100, m at next level, right associativity,
   format "'[v' x  <~  m  ;; '/' k ']'").
Notation "m ';;;' k" := (Async.bind m (λ _, k))
  (at level 100, right associativity,
   format "'[v' m  ;;; '/' k ']'").

(** ** contexts/AuthContext.tsx *)

Module AuthContext.

(** [authAPI] of services/api: each call is given by how its promise
  settles. *)
Module authAPI.
Record t (User LoginCredentials RegisterCredentials ForgotPasswordData : Type)
    : Type := mk {
  getCurrentUser : Settled (option User);
  login : LoginCredentials → Settled User;
  register : RegisterCredentials → Settled User;
  logout : Settled ();
  forgotPassword : ForgotPasswordData → Settled ();
}.
Arguments mk {_ _ _ _} _ _ _ _ _.
Arguments getCurrentUser {_ _ _ _} _.
Arguments login {_ _ _ _} _ _.
Arguments register {_ _ _ _} _ _.
Arguments logout {_ _ _ _} _.
Arguments forgotPassword {_ _ _ _} _ _.
End authAPI.

Section Model.
(** The declarations of types/auth that the context only passes around. *)
Context {User LoginCredentials RegisterCredentials ForgotPasswordData : Type}.

Record AuthState : Type := mkAuthState {
  user : option User;
  isAuthenticated : bool;
  isLoading : bool;
  error : option string;
}.

Inductive AuthAction : Type :=
  | LOGIN_START
  | LOGIN_SUCCESS (payload : User)
  | LOGIN_FAILURE (payload : string)
  | REGISTER_START
  | REGISTER_SUCCESS (payload : User)
  | REGISTER_FAILURE (payload : string)
  | LOGOUT
  | CLEAR_ERROR
  | SET_LOADING (payload : bool).

Definition initialState : AuthState :=
  {| user := None; isAuthenticated := false; isLoading := false;
     error := None |}.

Definition authReducer (state : AuthState) (action : AuthAction) : AuthState :=
  match action with
  | LOGIN_START | REGISTER_START =>
      {| user := user state; isAuthenticated := isAuthenticated state;
         isLoading := true; error := None |}
  | LOGIN_SUCCESS payload | REGISTER_SUCCESS payload =>
      {| user := Some payload; isAuthenticated := true;
         isLoading := false; error := None |}
  | LOGIN_FAILURE payload | REGISTER_FAILURE payload =>
      {| user := None; isAuthenticated := false;
         isLoading := false; error := Some payload |}
  | LOGOUT =>
      {| user := None; isAuthenticated := false;
         isLoading := isLoading state; error := None |}
  | CLEAR_ERROR =>
      {| user := user state; isAuthenticated := isAuthenticated state;
         isLoading := isLoading state; error := None |}
  | SET_LOADING payload =>
      {| user := user state; isAuthenticated := isAuthenticated state;
         isLoading := payload; error := error state |}
  end.

Definition Task : Type → Type := @Async.t AuthState AuthAction.
Definition dispatch : AuthAction → Task () := Async.dispatch authReducer.

Variable api :
  authAPI.t User LoginCredentials RegisterCredentials ForgotPasswordData.

(** The effect run once when the provider mounts. *)
Definition checkAuth : Task () :=
  dispatch (SET_LOADING true) ;;;
  Async.try_catch_finally
    (user <~ Async.await (authAPI.getCurrentUser api) ;;
     match user with
     | Some user => dispatch (LOGIN_SUCCESS user)
     | None => Async.ret ()
     end)
    (λ error, Async.console_error "Auth check failed:" error)
    (dispatch (SET_LOADING false)).

Definition login (credentials : LoginCredentials) : Task () :=
  dispatch LOGIN_START ;;;
  Async.try_catch
    (user <~ Async.await (authAPI.login api credentials) ;;
     dispatch (LOGIN_SUCCESS user))
    (λ error,
       dispatch (LOGIN_FAILURE (message error)) ;;;
       Async.throw error).

Definition register (data : RegisterCredentials) : Task () :=
  dispatch REGISTER_START ;;;
  Async.try_catch
    (user <~ Async.await (authAPI.register api data) ;;
     dispatch (REGISTER_SUCCESS user))
    (λ error,
       dispatch (REGISTER_FAILURE (message error)) ;;;
       Async.throw error).

Definition logout : Task () :=
  Async.try_catch
    (Async.await (authAPI.logout api) ;;;
     dispatch LOGOUT)
    (λ error, Async.console_error "Logout failed:" error).

Definition forgotPassword (data : ForgotPasswordData) : Task () :=
  dispatch (SET_LOADING true) ;;;
  Async.try_catch_finally
    (Async.await (authAPI.forgotPassword api data))
    (λ error,
       dispatch (LOGIN_FAILURE (message error)) ;;;
       Async.throw error)
    (dispatch (SET_LOADING false)).

Definition clearError : Task () := dispatch CLEAR_ERROR.
End Model.

Arguments AuthState : clear implicits.
Arguments AuthAction : clear implicits.

End AuthContext.

(** ** contexts/EventsContext.tsx *)

Module EventsContext.

(** [eventsAPI] of services/api. *)
Module eventsAPI.
Record t (Event CreateEventData PartialCreateEventData EventFilters : Type)
    : Type := mk {
  getEvents : option EventFilters → Settled (list Event);
  getMyEvents : Settled (list Event);
  getEvent : string → Settled (option Event);
  createEvent : CreateEventData → Settled Event;
  updateEvent : string → PartialCreateEventData → Settled Event;
  deleteEvent : string → Settled ();
  joinEvent : string → Settled ();
  leaveEvent : string → Settled ();
}.
Arguments mk {_ _ _ _} _ _ _ _ _ _ _ _.
Arguments getEvents {_ _ _ _} _ _.
Arguments getMyEvents {_ _ _ _} _.
Arguments getEvent {_ _ _ _} _ _.
Arguments createEvent {_ _ _ _} _ _.
Arguments updateEvent {_ _ _ _} _ _ _.
Arguments deleteEvent {_ _ _ _} _ _.
Arguments joinEvent {_ _ _ _} _ _.
Arguments leaveEvent {_ _ _ _} _ _.
End eventsAPI.

Section Model.
(** The declarations of types/events. Of an [Event] the context reads only
  [id]; [EventDetails] stands for its other fields, [PartialCreateEventData]
  for [Partial<CreateEventData>] and [noFilters] for the empty filter
  object. *)
Context {EventDetails CreateEventData PartialCreateEventData EventFilters : Type}.
Variable noFilters : EventFilters.

Record Event : Type := mkEvent {
  id : string;
  details : EventDetails;
}.

Record EventsState : Type := mkEventsState {
  events : list Event;
  myEvents : list Event;
  currentEvent : option Event;
  isLoading : bool;
  error : option string;
  filters : EventFilters;
}.

Inductive EventsAction : Type :=
  | FETCH_EVENTS_START
  | FETCH_EVENTS_SUCCESS (payload : list Event)
  | FETCH_EVENTS_FAILURE (payload : string)
  | FETCH_MY_EVENTS_SUCCESS (payload : list Event)
  | SET_CURRENT_EVENT (payload : option Event)
  | CREATE_EVENT_SUCCESS (payload : Event)
  | UPDATE_EVENT_SUCCESS (payload : Event)
  | DELETE_EVENT_SUCCESS (payload : string)
  | SET_FILTERS (payload : EventFilters)
  | CLEAR_ERROR
  | SET_LOADING (payload : bool).

Definition initialState : EventsState :=
  {| events := []; myEvents := []; currentEvent := None; isLoading := false;
     error := None; filters := noFilters |}.

Definition eventsReducer (state : EventsState) (action : EventsAction)
    : EventsState :=
  match action with
  | FETCH_EVENTS_START =>
      {| events := events state; myEvents := myEvents state;
         currentEvent := currentEvent state;
         isLoading := true; error := None; filters := filters state |}
  | FETCH_EVENTS_SUCCESS payload =>
      {| events := payload; myEvents := myEvents state;
         currentEvent := currentEvent state;
         isLoading := false; error := None; filters := filters state |}
  | FETCH_EVENTS_FAILURE payload =>
      {| events := events state; myEvents := myEvents state;
         currentEvent := currentEvent state;
         isLoading := false; error := Some payload; filters := filters state |}
  | FETCH_MY_EVENTS_SUCCESS payload =>
      {| events := events state; myEvents := payload;
         currentEvent := currentEvent state;
         isLoading := isLoading state; error := error state;
         filters := filters state |}
  | SET_CURRENT_EVENT payload =>
      {| events := events state; myEvents := myEvents state;
         currentEvent := payload;
         isLoading := isLoading state; error := error state;
         filters := filters state |}
  | CREATE_EVENT_SUCCESS payload =>
      {| events := events state ++ [payload];
         myEvents := myEvents state ++ [payload];
         currentEvent := currentEvent state;
         isLoading := isLoading state; error := error state;
         filters := filters state |}
  | UPDATE_EVENT_SUCCESS payload =>
      {| events :=
           (λ event, if decide (id event = id payload) then payload else event)
             <$> events state;
         myEvents :=
           (λ event, if decide (id event = id payload) then payload else event)
             <$> myEvents state;
         currentEvent :=
           if decide (id <$> currentEvent state = Some (id payload))
           then Some payload else currentEvent state;
         isLoading := isLoading state; error := error state;
         filters := filters state |}
  | DELETE_EVENT_SUCCESS payload =>
      {| events := filter (λ event, id event ≠ payload) (events state);
         myEvents := filter (λ event, id event ≠ payload) (myEvents state);
         currentEvent :=
           if decide (id <$> currentEvent state = Some payload)
           then None else currentEvent state;
         isLoading := isLoading state; error := error state;
         filters := filters state |}
  | SET_FILTERS payload =>
      {| events := events state; myEvents := myEvents state;
         currentEvent := currentEvent state;
         isLoading := isLoading state; error := error state;
         filters := payload |}
  | CLEAR_ERROR =>
      {| events := events state; myEvents := myEvents state;
         currentEvent := currentEvent state;
         isLoading := isLoading state; error := None;
         filters := filters state |}
  | SET_LOADING payload =>
      {| events := events state; myEvents := myEvents state;
         currentEvent := currentEvent state;
         isLoading := payload; error := error state;
         filters := filters state |}
  end.

Definition Task : Type → Type := @Async.t EventsState EventsAction.
Definition dispatch : EventsAction → Task () := Async.dispatch eventsReducer.

Variable api :
  eventsAPI.t Event CreateEventData PartialCreateEventData EventFilters.

Definition fetchEvents (filters : option EventFilters) : Task () :=
  dispatch FETCH_EVENTS_START ;;;
  Async.try_catch
    (events <~ Async.await (eventsAPI.getEvents api filters) ;;
     dispatch (FETCH_EVENTS_SUCCESS events))
    (λ error, dispatch (FETCH_EVENTS_FAILURE (message error))).

Definition fetchMyEvents : Task () :=
  Async.try_catch
    (events <~ Async.await (eventsAPI.getMyEvents api) ;;
     dispatch (FETCH_MY_EVENTS_SUCCESS events))
    (λ error, Async.console_error "Failed to fetch my events:" error).

Definition fetchEvent (id : string) : Task () :=
  dispatch (SET_LOADING true) ;;;
  Async.try_catch_finally
    (event <~ Async.await (eventsAPI.getEvent api id) ;;
     dispatch (SET_CURRENT_EVENT event))
    (λ error, dispatch (FETCH_EVENTS_FAILURE (message error)))
    (dispatch (SET_LOADING false)).

Definition createEvent (data : CreateEventData) : Task Event :=
  dispatch (SET_LOADING true) ;;;
  Async.try_catch_finally
    (event <~ Async.await (eventsAPI.createEvent api data) ;;
     dispatch (CREATE_EVENT_SUCCESS event) ;;;
     Async.ret event)
    (λ error,
       dispatch (FETCH_EVENTS_FAILURE (message error)) ;;;
       Async.throw error)
    (dispatch (SET_LOADING false)).

Definition updateEvent (id : string) (data : PartialCreateEventData)
    : Task () :=
  dispatch (SET_LOADING true) ;;;
  Async.try_catch_finally
    (event <~ Async.await (eventsAPI.updateEvent api id data) ;;
     dispatch (UPDATE_EVENT_SUCCESS event))
    (λ error,
       dispatch (FETCH_EVENTS_FAILURE (message error)) ;;;
       Async.throw error)
    (dispatch (SET_LOADING false)).

Definition deleteEvent (id : string) : Task () :=
  Async.try_catch
    (Async.await (eventsAPI.deleteEvent api id) ;;;
     dispatch (DELETE_EVENT_SUCCESS id))
    (λ error,
       dispatch (FETCH_EVENTS_FAILURE (message error)) ;;;
       Async.throw error).

Definition joinEvent (eventId : string) : Task () :=
  Async.try_catch
    (Async.await (eventsAPI.joinEvent api eventId) ;;;
     updatedEvent <~ Async.await (eventsAPI.getEvent api eventId) ;;
     match updatedEvent with
     | Some _ => dispatch (SET_CURRENT_EVENT updatedEvent)
     | None => Async.ret ()
     end)
    (λ error,
       dispatch (FETCH_EVENTS_FAILURE (message error)) ;;;
       Async.throw error).

Definition leaveEvent (eventId : string) : Task () :=
  Async.try_catch
    (Async.await (eventsAPI.leaveEvent api eventId) ;;;
     updatedEvent <~ Async.await (eventsAPI.getEvent api eventId) ;;
     match updatedEvent with
     | Some _ => dispatch (SET_CURRENT_EVENT updatedEvent)
     | None => Async.ret ()
     end)
    (λ error,
       dispatch (FETCH_EVENTS_FAILURE (message error)) ;;;
       Async.throw error).

Definition setFilters (filters : EventFilters) : Task () :=
  dispatch (SET_FILTERS filters).

Definition clearError : Task () := dispatch CLEAR_ERROR.
End Model.

Arguments Event : clear implicits.
Arguments EventsState : clear implicits.
Arguments EventsAction : clear implicits.

End EventsContext.

(** ** Predicates of the statements *)

(** The pairing of the two identity fields of the session. *)
Definition session_invariant {User} (s : AuthContext.AuthState User) : Prop :=
  AuthContext.isAuthenticated s = bool_decide (is_Some (AuthContext.user s)).

(** ** Concrete stores and collaborators

    Small instances on which the statements below are evaluated: users,
    credentials and event details are plain strings. *)

Module Fixtures.

Definition alice_session : AuthContext.AuthState string :=
  {| AuthContext.user := Some "alice";
     AuthContext.isAuthenticated := true;
     AuthContext.isLoading := false;
     AuthContext.error := None |}.

Definition alice_world
    : World (AuthContext.AuthState string) (AuthContext.AuthAction string) :=
  mkWorld alice_session [] [].

Definition network_down : Error := mkError "network down".

(** A session collaborator of which every call is rejected. *)
Definition offline_authAPI : AuthContext.authAPI.t string string string string :=
  AuthContext.authAPI.mk
    (Rejected network_down)
    (λ _, Rejected network_down)
    (λ _, Rejected network_down)
    (Rejected network_down)
    (λ _, Rejected network_down).

Definition picnic : EventsContext.Event string := EventsContext.mkEvent "1" "Picnic".
Definition hackathon : EventsContext.Event string :=
  EventsContext.mkEvent "2" "Hackathon".
Definition picnic_moved : EventsContext.Event string :=
  EventsContext.mkEvent "1" "Picnic, moved indoors".
Definition concert : EventsContext.Event string :=
  EventsContext.mkEvent "3" "Concert".

Definition busy_events : EventsContext.EventsState string (list string) :=
  {| EventsContext.events := [picnic; hackathon; picnic];
     EventsContext.myEvents := [hackathon; picnic];
     EventsContext.currentEvent := Some picnic;
     EventsContext.isLoading := false;
     EventsContext.error := None;
     EventsContext.filters := [] |}.

Definition busy_world
    : World (EventsContext.EventsState string (list string))
            (EventsContext.EventsAction string (list string)) :=
  mkWorld busy_events [] [].

Definition quota_exceeded : Error := mkError "quota exceeded".

(** An events collaborator of which every call is rejected. *)
Definition failing_eventsAPI
    : EventsContext.eventsAPI.t (EventsContext.Event string) string string
        (list string) :=
  EventsContext.eventsAPI.mk
    (λ _, Rejected quota_exceeded)
    (Rejected quota_exceeded)
    (λ _, Rejected quota_exceeded)
    (λ _, Rejected quota_exceeded)
    (λ _ _, Rejected quota_exceeded)
    (λ _, Rejected quota_exceeded)
    (λ _, Rejected quota_exceeded)
    (λ _, Rejected quota_exceeded).

(** An events collaborator of which every call succeeds; it knows the
    event of id 2 only. *)
Definition working_eventsAPI
    : EventsContext.eventsAPI.t (EventsContext.Event string) string string
        (list string) :=
  EventsContext.eventsAPI.mk
    (λ _, Fulfilled [hackathon])
    (Fulfilled [hackathon])
    (λ id, Fulfilled (if decide (id = "2") then Some hackathon else None))
    (λ title, Fulfilled (EventsContext.mkEvent "3" title))
    (λ id title, Fulfilled (EventsContext.mkEvent id title))
    (λ _, Fulfilled ())
    (λ _, Fulfilled ())
    (λ _, Fulfilled ()).

(** A session collaborator of which every call succeeds; the user it
    returns is the credentials it was given. *)
Definition working_authAPI : AuthContext.authAPI.t string string string string :=
  AuthContext.authAPI.mk
    (Fulfilled (Some "alice"))
    (λ credentials, Fulfilled credentials)
    (λ data, Fulfilled data)
    (Fulfilled ())
    (λ _, Fulfilled ()).

(** The session store as the provider mounts it, and a session left with
    the error of an earlier failure. *)
Definition mount_world
    : World (AuthContext.AuthState string) (AuthContext.AuthAction string) :=
  mkWorld AuthContext.initialState [] [].

Definition failed_session_world
    : World (AuthContext.AuthState string) (AuthContext.AuthAction string) :=
  mkWorld
    {| AuthContext.user := None;
       AuthContext.isAuthenticated := false;
       AuthContext.isLoading := false;
       AuthContext.error := Some "bad password" |}
    [] [].

(** An events store without a duplicated id, and one holding the error of
    an earlier failure. *)
Definition tidy_events : EventsContext.EventsState string (list string) :=
  {| EventsContext.events := [picnic; hackathon];
     EventsContext.myEvents := [hackathon];
     EventsContext.currentEvent := Some hackathon;
     EventsContext.isLoading := false;
     EventsContext.error := None;
     EventsContext.filters := [] |}.

Definition stale_error_world
    : World (EventsContext.EventsState string (list string))
            (EventsContext.EventsAction string (list string)) :=
  mkWorld
    {| EventsContext.events := [picnic; hackathon];
       EventsContext.myEvents := [hackathon];
       EventsContext.currentEvent := Some hackathon;
       EventsContext.isLoading := false;
       EventsContext.error := Some "quota exceeded";
       EventsContext.filters := [] |}
    [] [].

(** An events collaborator that accepts every mutation and then fails to
    fetch. *)
Definition refresh_failing_eventsAPI
    : EventsContext.eventsAPI.t (EventsContext.Event string) string string
        (list string) :=
  EventsContext.eventsAPI.mk
    (λ _, Rejected network_down)
    (Rejected network_down)
    (λ _, Rejected network_down)
    (λ title, Fulfilled (EventsContext.mkEvent "3" title))
    (λ id title, Fulfilled (EventsContext.mkEvent id title))
    (λ _, Fulfilled ())
    (λ _, Fulfilled ())
    (λ _, Fulfilled ()).

End Fixtures.

(** Unfolds an asynchronous function down to its dispatches. *)
Ltac run_task :=
  cbv [Async.bind Async.ret Async.throw Async.await Async.dispatch
       Async.console_error Async.try_catch Async.try_finally
       Async.try_catch_finally AuthContext.dispatch EventsContext.dispatch
       fst snd].

(** ** The session store: properties *)

Module AuthContextSpec.
Import AuthContext.

Section Properties.
Context {User LoginCredentials RegisterCredentials ForgotPasswordData : Type}.
Implicit Types (s : AuthState User) (a : AuthAction User) (u : User).
Implicit Types
  (api : authAPI.t User LoginCredentials RegisterCredentials ForgotPasswordData)
  (w : World (AuthState User) (AuthAction User)).

(** C1, as amended: [logout()] never rejects. When the collaborator call
    succeeds, LOGOUT is dispatched, after which user is absent,
    isAuthenticated is false and error is absent. When the collaborator call
    fails, LOGOUT is not dispatched: the session state is the one before the
    call and the failure is only written to the console. *)
Theorem logout_dispatches_LOGOUT_only_on_success api w :
  (logout api w).2 = Fulfilled () ∧
  match authAPI.logout api with
  | Fulfilled _ =>
      dispatched (logout api w).1 = dispatched w ++ [LOGOUT] ∧
      store (logout api w).1 = authReducer (store w) LOGOUT ∧
      user (store (logout api w).1) = None ∧
      isAuthenticated (store (logout api w).1) = false ∧
      error (store (logout api w).1) = None ∧
      console (logout api w).1 = console w
  | Rejected e =>
      dispatched (logout api w).1 = dispatched w ∧
      store (logout api w).1 = store w ∧
      console (logout api w).1 = console w ++ [("Logout failed:", e)]
  end.
Proof.
  unfold logout. run_task.
  destruct (authAPI.logout api) as [[]|e]; simpl; auto 10.
Qed.

(** C2: the session invariant isAuthenticated == (user is present) holds in
    the initial state, and every action of the session reducer takes a state
    that satisfies it to a state that satisfies it. *)
Theorem session_invariant_initial_and_preserved :
  session_invariant (@initialState User) ∧
  ∀ s a, session_invariant s → session_invariant (authReducer s a).
Proof.
  split; [reflexivity|].
  intros s a Hs. unfold session_invariant in *.
  destruct a; simpl; done.
Qed.

(** C7: after [forgotPassword(data)] isLoading is false, whether the
    collaborator call succeeds or fails; and when that call fails with
    message m, LOGIN_FAILURE(m) is dispatched, so that user is absent,
    isAuthenticated is false and error is m, and the call rejects with the
    same failure. *)
Theorem forgotPassword_failure_and_loading api data w :
  isLoading (store (forgotPassword api data w).1) = false ∧
  ∀ err, authAPI.forgotPassword api data = Rejected err →
    dispatched (forgotPassword api data w).1 =
      dispatched w ++
        [SET_LOADING true; LOGIN_FAILURE (message err); SET_LOADING false] ∧
    user (store (forgotPassword api data w).1) = None ∧
    isAuthenticated (store (forgotPassword api data w).1) = false ∧
    error (store (forgotPassword api data w).1) = Some (message err) ∧
    (forgotPassword api data w).2 = Rejected err.
Proof.
  unfold forgotPassword. run_task. split.
  - by destruct (authAPI.forgotPassword api data).
  - intros err ->. simpl. rewrite <- !(assoc_L (++)). done.
Qed.

(** C8: LOGIN_SUCCESS(u) followed by LOGOUT gives user absent,
    isAuthenticated false and error absent; LOGOUT leaves isLoading as
    LOGIN_SUCCESS left it, that is false. *)
Theorem login_success_then_logout s u :
  user (authReducer (authReducer s (LOGIN_SUCCESS u)) LOGOUT) = None ∧
  isAuthenticated (authReducer (authReducer s (LOGIN_SUCCESS u)) LOGOUT)
    = false ∧
  error (authReducer (authReducer s (LOGIN_SUCCESS u)) LOGOUT) = None ∧
  isLoading (authReducer (authReducer s (LOGIN_SUCCESS u)) LOGOUT)
    = isLoading (authReducer s (LOGIN_SUCCESS u)) ∧
  isLoading (authReducer (authReducer s (LOGIN_SUCCESS u)) LOGOUT) = false.
Proof. done. Qed.

End Properties.

(** C1, as stated, fails: with a session open and a collaborator whose
    logout call is rejected, [logout()] dispatches nothing and the user stays
    present and authenticated. *)
Lemma logout_failure_keeps_session :
  authAPI.logout Fixtures.offline_authAPI = Rejected Fixtures.network_down ∧
  dispatched (logout Fixtures.offline_authAPI Fixtures.alice_world).1 = [] ∧
  ¬ (user (store (logout Fixtures.offline_authAPI Fixtures.alice_world).1)
       = None ∧
     isAuthenticated
       (store (logout Fixtures.offline_authAPI Fixtures.alice_world).1)
       = false ∧
     error (store (logout Fixtures.offline_authAPI Fixtures.alice_world).1)
       = None).
Proof.
  split; [reflexivity|]. split; [reflexivity|].
  intros (Huser & _). vm_compute in Huser. discriminate Huser.
Qed.

Lemma session_invariant_initial_and_preserved_witness :
  session_invariant Fixtures.alice_session ∧
  session_invariant (authReducer Fixtures.alice_session LOGOUT).
Proof.
  split; [reflexivity|].
  apply (proj2 (@session_invariant_initial_and_preserved string)).
  reflexivity.
Defined.

Lemma forgotPassword_failure_and_loading_witness :
  authAPI.forgotPassword Fixtures.offline_authAPI "alice@example.org"
    = Rejected Fixtures.network_down ∧
  error (store (forgotPassword Fixtures.offline_authAPI "alice@example.org"
                  Fixtures.alice_world).1) = Some "network down" ∧
  user (store (forgotPassword Fixtures.offline_authAPI "alice@example.org"
                 Fixtures.alice_world).1) = None.
Proof.
  split; [reflexivity|].
  destruct (proj2 (forgotPassword_failure_and_loading
                     Fixtures.offline_authAPI "alice@example.org"
                     Fixtures.alice_world) Fixtures.network_down eq_refl)
    as (_ & Huser & _ & Herror & _).
  split; [exact Herror | exact Huser].
Defined.

End AuthContextSpec.

(** ** The event collection store: properties *)

Module EventsContextSpec.
Import EventsContext.

Section Lists.
Context {A : Type}.

(** What [filter] keeps is the largest sublist of kept entries. *)
Lemma sublist_filter_Forall (P : A → Prop) `{!∀ x, Decision (P x)}
    (k l : list A) :
  k `sublist_of` l → Forall P k → k `sublist_of` filter P l.
Proof.
  induction 1 as [|x k l _ IH|x k l _ IH]; intros Hk.
  - constructor.
  - apply Forall_cons in Hk as [Hx Hk].
    rewrite filter_cons_True by done. constructor. by apply IH.
  - rewrite filter_cons. destruct (decide (P x)); [constructor|]; by apply IH.
Qed.

(** A replacement by [map] reads, at each index, the old entry. *)
Lemma lookup_replace (matches : A → Prop) `{!∀ x, Decision (matches x)}
    (new : A) (l : list A) (i : nat) (x : A) :
  l !! i = Some x →
  ((λ y, if decide (matches y) then new else y) <$> l) !! i
    = Some (if decide (matches x) then new else x).
Proof. intros Hi. by rewrite list_lookup_fmap, Hi. Qed.
End Lists.

Section Properties.
Context {EventDetails CreateEventData PartialCreateEventData EventFilters : Type}.
Implicit Types
  (s : EventsState EventDetails EventFilters)
  (e c x : Event EventDetails)
  (k : list (Event EventDetails))
  (api : eventsAPI.t (Event EventDetails) CreateEventData
           PartialCreateEventData EventFilters)
  (w : World (EventsState EventDetails EventFilters)
             (EventsAction EventDetails EventFilters)).

(** C3: UPDATE_EVENT_SUCCESS(e) keeps the lengths of events and myEvents
    and, at every index of either list, puts e where the entry had the id of
    e and keeps the entry where it had another id; currentEvent becomes e
    when it was present with the id of e and is left as it was otherwise. *)
Theorem update_event_success_replaces_by_id s e :
  (length (events (eventsReducer s (UPDATE_EVENT_SUCCESS e)))
     = length (events s) ∧
   ∀ i x, events s !! i = Some x →
     (id x = id e →
        events (eventsReducer s (UPDATE_EVENT_SUCCESS e)) !! i = Some e) ∧
     (id x ≠ id e →
        events (eventsReducer s (UPDATE_EVENT_SUCCESS e)) !! i = Some x)) ∧
  (length (myEvents (eventsReducer s (UPDATE_EVENT_SUCCESS e)))
     = length (myEvents s) ∧
   ∀ i x, myEvents s !! i = Some x →
     (id x = id e →
        myEvents (eventsReducer s (UPDATE_EVENT_SUCCESS e)) !! i = Some e) ∧
     (id x ≠ id e →
        myEvents (eventsReducer s (UPDATE_EVENT_SUCCESS e)) !! i = Some x)) ∧
  (∀ c, currentEvent s = Some c → id c = id e →
     currentEvent (eventsReducer s (UPDATE_EVENT_SUCCESS e)) = Some e) ∧
  (∀ c, currentEvent s = Some c → id c ≠ id e →
     currentEvent (eventsReducer s (UPDATE_EVENT_SUCCESS e)) = Some c) ∧
  (currentEvent s = None →
     currentEvent (eventsReducer s (UPDATE_EVENT_SUCCESS e)) = None).
Proof.
  simpl. repeat split.
  - apply length_fmap.
  - intros Hid. rewrite (lookup_replace (λ y, id y = id e) e _ i x) by done.
    by rewrite decide_True.
  - intros Hid. rewrite (lookup_replace (λ y, id y = id e) e _ i x) by done.
    by rewrite decide_False.
  - apply length_fmap.
  - intros Hid. rewrite (lookup_replace (λ y, id y = id e) e _ i x) by done.
    by rewrite decide_True.
  - intros Hid. rewrite (lookup_replace (λ y, id y = id e) e _ i x) by done.
    by rewrite decide_False.
  - intros c -> Hid. simpl. rewrite Hid. by rewrite decide_True.
  - intros c -> Hid. simpl. rewrite decide_False; [done|]. congruence.
  - intros ->. done.
Qed.

(** C4: DELETE_EVENT_SUCCESS(i) leaves in events, and in myEvents, exactly
    the entries whose id is not i, in their order: the new list is a sublist
    of the old one, its members are the members of the old one with another
    id, and every sublist of the old list without an entry of id i is a
    sublist of the new one. currentEvent becomes absent exactly when it was
    present with id i, and is left as it was otherwise. *)
Theorem delete_event_success_removes_by_id s (i : string) :
  (events (eventsReducer s (DELETE_EVENT_SUCCESS i)) `sublist_of` events s ∧
   (∀ x, x ∈ events (eventsReducer s (DELETE_EVENT_SUCCESS i))
         ↔ x ∈ events s ∧ id x ≠ i) ∧
   (∀ k, k `sublist_of` events s → Forall (λ x, id x ≠ i) k →
         k `sublist_of` events (eventsReducer s (DELETE_EVENT_SUCCESS i)))) ∧
  (myEvents (eventsReducer s (DELETE_EVENT_SUCCESS i))
     `sublist_of` myEvents s ∧
   (∀ x, x ∈ myEvents (eventsReducer s (DELETE_EVENT_SUCCESS i))
         ↔ x ∈ myEvents s ∧ id x ≠ i) ∧
   (∀ k, k `sublist_of` myEvents s → Forall (λ x, id x ≠ i) k →
         k `sublist_of` myEvents (eventsReducer s (DELETE_EVENT_SUCCESS i)))) ∧
  (∀ c, currentEvent s = Some c →
     (currentEvent (eventsReducer s (DELETE_EVENT_SUCCESS i)) = None
      ↔ id c = i)) ∧
  (∀ c, currentEvent s = Some c → id c ≠ i →
     currentEvent (eventsReducer s (DELETE_EVENT_SUCCESS i)) = Some c) ∧
  (currentEvent s = None →
     currentEvent (eventsReducer s (DELETE_EVENT_SUCCESS i)) = None).
Proof.
  simpl. split_and!.
  - apply sublist_filter.
  - intros x. rewrite list_elem_of_filter. tauto.
  - intros k. apply sublist_filter_Forall.
  - apply sublist_filter.
  - intros x. rewrite list_elem_of_filter. tauto.
  - intros k. apply sublist_filter_Forall.
  - intros c ->. simpl. case_decide; naive_solver.
  - intros c -> Hid. simpl. rewrite decide_False; [done|]. congruence.
  - intros ->. done.
Qed.

(** C5: CREATE_EVENT_SUCCESS(e) makes events and myEvents one entry longer,
    with e as the last entry of each and every earlier entry where it was. *)
Theorem create_event_success_appends s e :
  (events (eventsReducer s (CREATE_EVENT_SUCCESS e)) = events s ++ [e] ∧
   length (events (eventsReducer s (CREATE_EVENT_SUCCESS e)))
     = S (length (events s)) ∧
   last (events (eventsReducer s (CREATE_EVENT_SUCCESS e))) = Some e ∧
   ∀ i x, events s !! i = Some x →
     events (eventsReducer s (CREATE_EVENT_SUCCESS e)) !! i = Some x) ∧
  (myEvents (eventsReducer s (CREATE_EVENT_SUCCESS e)) = myEvents s ++ [e] ∧
   length (myEvents (eventsReducer s (CREATE_EVENT_SUCCESS e)))
     = S (length (myEvents s)) ∧
   last (myEvents (eventsReducer s (CREATE_EVENT_SUCCESS e))) = Some e ∧
   ∀ i x, myEvents s !! i = Some x →
     myEvents (eventsReducer s (CREATE_EVENT_SUCCESS e)) !! i = Some x).
Proof.
  simpl. split_and!; try done.
  - rewrite length_app. simpl. lia.
  - apply last_snoc.
  - intros i x Hi. by apply lookup_app_l_Some.
  - rewrite length_app. simpl. lia.
  - apply last_snoc.
  - intros i x Hi. by apply lookup_app_l_Some.
Qed.

(** C6: when the collaborator call of [createEvent(data)] fails with message
    m, the resulting state has error m and isLoading false, events (and
    myEvents) are the lists before the call, and the call rejects with the
    same failure; when it succeeds with an event, CREATE_EVENT_SUCCESS of that
    event is dispatched and the call returns the event. *)
Theorem createEvent_failure_and_success api data w :
  (∀ err, eventsAPI.createEvent api data = Rejected err →
     error (store (createEvent api data w).1) = Some (message err) ∧
     isLoading (store (createEvent api data w).1) = false ∧
     events (store (createEvent api data w).1) = events (store w) ∧
     myEvents (store (createEvent api data w).1) = myEvents (store w) ∧
     (createEvent api data w).2 = Rejected err) ∧
  (∀ event, eventsAPI.createEvent api data = Fulfilled event →
     dispatched (createEvent api data w).1 =
       dispatched w ++
         [SET_LOADING true; CREATE_EVENT_SUCCESS event; SET_LOADING false] ∧
     store (createEvent api data w).1 =
       eventsReducer
         (eventsReducer (eventsReducer (store w) (SET_LOADING true))
            (CREATE_EVENT_SUCCESS event))
         (SET_LOADING false) ∧
     (createEvent api data w).2 = Fulfilled event).
Proof.
  unfold createEvent. run_task. split.
  - intros err ->. done.
  - intros event ->. simpl. rewrite <- !(assoc_L (++)). done.
Qed.

(** C9: when the collaborator call of [fetchEvent(id)] succeeds with an
    absent event, currentEvent is absent afterwards, error is what it was
    before the call, and isLoading is false. *)
Theorem fetchEvent_absent_clears_currentEvent api (i : string) w :
  eventsAPI.getEvent api i = Fulfilled None →
  currentEvent (store (fetchEvent api i w).1) = None ∧
  error (store (fetchEvent api i w).1) = error (store w) ∧
  isLoading (store (fetchEvent api i w).1) = false ∧
  dispatched (fetchEvent api i w).1 =
    dispatched w ++
      [SET_LOADING true; SET_CURRENT_EVENT None; SET_LOADING false].
Proof.
  intros Hget. unfold fetchEvent. run_task. rewrite Hget. simpl.
  rewrite <- !(assoc_L (++)). done.
Qed.

(** C10: when the mutation call and the following getEvent call of
    [joinEvent(eventId)], or of [leaveEvent(eventId)], both succeed, then
    events, myEvents, isLoading, error and filters are what they were before
    the call; currentEvent is the refreshed event when that is present and
    what it was before the call when the refreshed event is absent. *)
Theorem joinEvent_leaveEvent_success_frame api (eventId : string) w
    (refreshed : option (Event EventDetails)) :
  eventsAPI.getEvent api eventId = Fulfilled refreshed →
  (eventsAPI.joinEvent api eventId = Fulfilled () →
     events (store (joinEvent api eventId w).1) = events (store w) ∧
     myEvents (store (joinEvent api eventId w).1) = myEvents (store w) ∧
     isLoading (store (joinEvent api eventId w).1) = isLoading (store w) ∧
     error (store (joinEvent api eventId w).1) = error (store w) ∧
     filters (store (joinEvent api eventId w).1) = filters (store w) ∧
     currentEvent (store (joinEvent api eventId w).1) =
       match refreshed with
       | Some _ => refreshed
       | None => currentEvent (store w)
       end ∧
     (joinEvent api eventId w).2 = Fulfilled ()) ∧
  (eventsAPI.leaveEvent api eventId = Fulfilled () →
     events (store (leaveEvent api eventId w).1) = events (store w) ∧
     myEvents (store (leaveEvent api eventId w).1) = myEvents (store w) ∧
     isLoading (store (leaveEvent api eventId w).1) = isLoading (store w) ∧
     error (store (leaveEvent api eventId w).1) = error (store w) ∧
     filters (store (leaveEvent api eventId w).1) = filters (store w) ∧
     currentEvent (store (leaveEvent api eventId w).1) =
       match refreshed with
       | Some _ => refreshed
       | None => currentEvent (store w)
       end ∧
     (leaveEvent api eventId w).2 = Fulfilled ()).
Proof.
  intros Hget. split; intros Hcall.
  - unfold joinEvent. run_task. rewrite Hcall, Hget.
    by destruct refreshed.
  - unfold leaveEvent. run_task. rewrite Hcall, Hget.
    by destruct refreshed.
Qed.

End Properties.

Lemma update_event_success_replaces_by_id_witness :
  events (eventsReducer Fixtures.busy_events
            (UPDATE_EVENT_SUCCESS Fixtures.picnic_moved))
    = [Fixtures.picnic_moved; Fixtures.hackathon; Fixtures.picnic_moved] ∧
  events (eventsReducer Fixtures.busy_events
            (UPDATE_EVENT_SUCCESS Fixtures.picnic_moved)) !! 1
    = Some Fixtures.hackathon ∧
  currentEvent (eventsReducer Fixtures.busy_events
                  (UPDATE_EVENT_SUCCESS Fixtures.picnic_moved))
    = Some Fixtures.picnic_moved.
Proof.
  split; [reflexivity|].
  destruct (update_event_success_replaces_by_id
              Fixtures.busy_events Fixtures.picnic_moved)
    as ((_ & Hevents) & _ & Hcurrent & _).
  split.
  - apply (Hevents 1 Fixtures.hackathon); [reflexivity|]. by vm_compute.
  - apply (Hcurrent Fixtures.picnic); reflexivity.
Defined.

Lemma delete_event_success_removes_by_id_witness :
  events (eventsReducer Fixtures.busy_events (DELETE_EVENT_SUCCESS "1"))
    = [Fixtures.hackathon] ∧
  [Fixtures.hackathon] `sublist_of`
    events (eventsReducer Fixtures.busy_events (DELETE_EVENT_SUCCESS "1")) ∧
  currentEvent (eventsReducer Fixtures.busy_events (DELETE_EVENT_SUCCESS "1"))
    = None.
Proof.
  split; [reflexivity|].
  destruct (delete_event_success_removes_by_id Fixtures.busy_events "1")
    as ((_ & _ & Hmax) & _ & Hcurrent & _).
  split.
  - apply Hmax.
    + apply sublist_cons, sublist_skip, sublist_nil_l.
    + apply Forall_cons; split; [by vm_compute | apply Forall_nil_2].
  - apply (Hcurrent Fixtures.picnic); reflexivity.
Defined.

Lemma create_event_success_appends_witness :
  events (eventsReducer Fixtures.busy_events
            (CREATE_EVENT_SUCCESS Fixtures.concert))
    = [Fixtures.picnic; Fixtures.hackathon; Fixtures.picnic; Fixtures.concert] ∧
  events (eventsReducer Fixtures.busy_events
            (CREATE_EVENT_SUCCESS Fixtures.concert)) !! 1
    = Some Fixtures.hackathon.
Proof.
  split; [reflexivity|].
  destruct (create_event_success_appends Fixtures.busy_events Fixtures.concert)
    as ((_ & _ & _ & Hkept) & _).
  apply Hkept. reflexivity.
Defined.

Lemma createEvent_failure_and_success_witness :
  eventsAPI.createEvent Fixtures.failing_eventsAPI "T"
    = Rejected Fixtures.quota_exceeded ∧
  error (store (createEvent Fixtures.failing_eventsAPI "T"
                  Fixtures.busy_world).1) = Some "quota exceeded" ∧
  (createEvent Fixtures.working_eventsAPI "T" Fixtures.busy_world).2
    = Fulfilled (mkEvent "3" "T").
Proof.
  split; [reflexivity|].
  split.
  - apply (proj1 (createEvent_failure_and_success
                    Fixtures.failing_eventsAPI "T" Fixtures.busy_world)
             Fixtures.quota_exceeded eq_refl).
  - apply (proj2 (createEvent_failure_and_success
                    Fixtures.working_eventsAPI "T" Fixtures.busy_world)
             (mkEvent "3" "T") eq_refl).
Defined.

Lemma fetchEvent_absent_clears_currentEvent_witness :
  eventsAPI.getEvent Fixtures.working_eventsAPI "1" = Fulfilled None ∧
  currentEvent Fixtures.busy_events = Some Fixtures.picnic ∧
  currentEvent (store (fetchEvent Fixtures.working_eventsAPI "1"
                         Fixtures.busy_world).1) = None.
Proof.
  split; [reflexivity|]. split; [reflexivity|].
  apply (fetchEvent_absent_clears_currentEvent
           Fixtures.working_eventsAPI "1" Fixtures.busy_world eq_refl).
Defined.

Lemma joinEvent_leaveEvent_success_frame_witness :
  eventsAPI.getEvent Fixtures.working_eventsAPI "2"
    = Fulfilled (Some Fixtures.hackathon) ∧
  eventsAPI.joinEvent Fixtures.working_eventsAPI "2" = Fulfilled () ∧
  currentEvent (store (joinEvent Fixtures.working_eventsAPI "2"
                         Fixtures.busy_world).1) = Some Fixtures.hackathon ∧
  events (store (leaveEvent Fixtures.working_eventsAPI "2"
                   Fixtures.busy_world).1) = events Fixtures.busy_events.
Proof.
  split; [reflexivity|]. split; [reflexivity|].
  destruct (joinEvent_leaveEvent_success_frame
              Fixtures.working_eventsAPI "2" Fixtures.busy_world
              (Some Fixtures.hackathon) eq_refl) as (Hjoin & Hleave).
  split.
  - apply (Hjoin eq_refl).
  - apply (Hleave eq_refl).
Defined.

End EventsContextSpec.

(** ** The session store: the remaining operations *)

Module AuthContextOperations.
Import AuthContext.

Section Properties.
Context {User LoginCredentials RegisterCredentials ForgotPasswordData : Type}.
Implicit Types (s : AuthState User) (a : AuthAction User) (u : User).
Implicit Types
  (api : authAPI.t User LoginCredentials RegisterCredentials ForgotPasswordData)
  (w : World (AuthState User) (AuthAction User)).

(** X1: [login]: the session after the call depends on the outcome of the
    collaborator only, not on the session before it. A fulfilled call leaves
    the returned user authenticated, without loading flag or error; a
    rejected call leaves nobody authenticated, with the message of the
    failure as error, and the call rejects with that failure. *)
Theorem login_outcome api (credentials : LoginCredentials) w :
  (∀ u, authAPI.login api credentials = Fulfilled u →
     store (login api credentials w).1 =
       {| user := Some u; isAuthenticated := true; isLoading := false;
          error := None |} ∧
     dispatched (login api credentials w).1 =
       dispatched w ++ [LOGIN_START; LOGIN_SUCCESS u] ∧
     (login api credentials w).2 = Fulfilled ()) ∧
  (∀ err, authAPI.login api credentials = Rejected err →
     store (login api credentials w).1 =
       {| user := None; isAuthenticated := false; isLoading := false;
          error := Some (message err) |} ∧
     dispatched (login api credentials w).1 =
       dispatched w ++ [LOGIN_START; LOGIN_FAILURE (message err)] ∧
     (login api credentials w).2 = Rejected err).
Proof.
  unfold login. run_task.
  split; intros ? ->; simpl; rewrite <- !(assoc_L (++)); done.
Qed.

(** X2: [register]: as [login], with the register call and the REGISTER
    actions. *)
Theorem register_outcome api (data : RegisterCredentials) w :
  (∀ u, authAPI.register api data = Fulfilled u →
     store (register api data w).1 =
       {| user := Some u; isAuthenticated := true; isLoading := false;
          error := None |} ∧
     dispatched (register api data w).1 =
       dispatched w ++ [REGISTER_START; REGISTER_SUCCESS u] ∧
     (register api data w).2 = Fulfilled ()) ∧
  (∀ err, authAPI.register api data = Rejected err →
     store (register api data w).1 =
       {| user := None; isAuthenticated := false; isLoading := false;
          error := Some (message err) |} ∧
     dispatched (register api data w).1 =
       dispatched w ++ [REGISTER_START; REGISTER_FAILURE (message err)] ∧
     (register api data w).2 = Rejected err).
Proof.
  unfold register. run_task.
  split; intros ? ->; simpl; rewrite <- !(assoc_L (++)); done.
Qed.

(** X3: the session check at mount never rejects and always ends with isLoading
    false. A returned user is authenticated; when no user is returned, or
    when the call fails, user, isAuthenticated and error stay what they
    were: the failure goes to the console and never into the error field. *)
Theorem checkAuth_outcome api w :
  (checkAuth api w).2 = Fulfilled () ∧
  isLoading (store (checkAuth api w).1) = false ∧
  match authAPI.getCurrentUser api with
  | Fulfilled (Some u) =>
      user (store (checkAuth api w).1) = Some u ∧
      isAuthenticated (store (checkAuth api w).1) = true ∧
      error (store (checkAuth api w).1) = None ∧
      console (checkAuth api w).1 = console w
  | Fulfilled None =>
      user (store (checkAuth api w).1) = user (store w) ∧
      isAuthenticated (store (checkAuth api w).1)
        = isAuthenticated (store w) ∧
      error (store (checkAuth api w).1) = error (store w) ∧
      console (checkAuth api w).1 = console w
  | Rejected e =>
      user (store (checkAuth api w).1) = user (store w) ∧
      isAuthenticated (store (checkAuth api w).1)
        = isAuthenticated (store w) ∧
      error (store (checkAuth api w).1) = error (store w) ∧
      console (checkAuth api w).1 = console w ++ [("Auth check failed:", e)]
  end.
Proof.
  unfold checkAuth. run_task.
  destruct (authAPI.getCurrentUser api) as [[u|]|e]; simpl; auto 10.
Qed.

(** X4: mounted on the initial state, the session check ends either with the
    returned user authenticated or back in the initial state. *)
Theorem checkAuth_on_mount api :
  store (checkAuth api (mkWorld initialState [] [])).1 =
    match authAPI.getCurrentUser api with
    | Fulfilled (Some u) =>
        {| user := Some u; isAuthenticated := true; isLoading := false;
           error := None |}
    | Fulfilled None | Rejected _ => initialState
    end.
Proof.
  unfold checkAuth. run_task.
  by destruct (authAPI.getCurrentUser api) as [[u|]|e].
Qed.

(** X5: every operation of the session store keeps the session invariant,
    whatever the collaborator answers. *)
Theorem session_operations_keep_invariant api
    (credentials : LoginCredentials) (data : RegisterCredentials)
    (forgotten : ForgotPasswordData) w :
  session_invariant (store w) →
  session_invariant (store (checkAuth api w).1) ∧
  session_invariant (store (login api credentials w).1) ∧
  session_invariant (store (register api data w).1) ∧
  session_invariant (store (logout api w).1) ∧
  session_invariant (store (forgotPassword api forgotten w).1) ∧
  session_invariant (store (clearError w).1).
Proof.
  intros Hw. unfold session_invariant in *. split_and!.
  - unfold checkAuth. run_task.
    by destruct (authAPI.getCurrentUser api) as [[u|]|e].
  - unfold login. run_task. by destruct (authAPI.login api credentials).
  - unfold register. run_task. by destruct (authAPI.register api data).
  - unfold logout. run_task. by destruct (authAPI.logout api).
  - unfold forgotPassword. run_task.
    by destruct (authAPI.forgotPassword api forgotten).
  - done.
Qed.

(** X6: A successful [login] followed by a successful [logout] leaves the
    session store in its initial state, whatever it held before. *)
Theorem login_then_logout_is_initial api (credentials : LoginCredentials) w u :
  authAPI.login api credentials = Fulfilled u →
  authAPI.logout api = Fulfilled () →
  store (logout api (login api credentials w).1).1 = initialState ∧
  (logout api (login api credentials w).1).2 = Fulfilled ().
Proof.
  intros Hlogin Hlogout. unfold logout, login. run_task.
  by rewrite Hlogin, Hlogout.
Qed.

(** X7: A failed [login] followed by [clearError] leaves the session store in
    its initial state too: the failure logs out whoever was authenticated. *)
Theorem failed_login_then_clearError_is_initial api
    (credentials : LoginCredentials) w err :
  authAPI.login api credentials = Rejected err →
  store (clearError (login api credentials w).1).1 = initialState.
Proof.
  intros Hlogin. unfold clearError, login. run_task. by rewrite Hlogin.
Qed.

(** X8: A successful [forgotPassword] touches the loading flag only: user,
    isAuthenticated and error are what they were, so an error left by an
    earlier failure is still there. *)
Theorem forgotPassword_success_keeps_session api (data : ForgotPasswordData) w :
  authAPI.forgotPassword api data = Fulfilled () →
  user (store (forgotPassword api data w).1) = user (store w) ∧
  isAuthenticated (store (forgotPassword api data w).1)
    = isAuthenticated (store w) ∧
  error (store (forgotPassword api data w).1) = error (store w) ∧
  isLoading (store (forgotPassword api data w).1) = false ∧
  dispatched (forgotPassword api data w).1 =
    dispatched w ++ [SET_LOADING true; SET_LOADING false] ∧
  (forgotPassword api data w).2 = Fulfilled ().
Proof.
  intros Hcall. unfold forgotPassword. run_task. rewrite Hcall. simpl.
  rewrite <- !(assoc_L (++)). done.
Qed.

End Properties.

Lemma login_outcome_witness :
  authAPI.login Fixtures.working_authAPI "bob" = Fulfilled "bob" ∧
  authAPI.login Fixtures.offline_authAPI "bob"
    = Rejected Fixtures.network_down ∧
  user (store (login Fixtures.working_authAPI "bob" Fixtures.alice_world).1)
    = Some "bob" ∧
  user (store (login Fixtures.offline_authAPI "bob" Fixtures.alice_world).1)
    = None.
Proof.
  split; [reflexivity|]. split; [reflexivity|]. split.
  - destruct (proj1 (login_outcome Fixtures.working_authAPI "bob"
                       Fixtures.alice_world) "bob" eq_refl) as (-> & _).
    reflexivity.
  - destruct (proj2 (login_outcome Fixtures.offline_authAPI "bob"
                       Fixtures.alice_world) Fixtures.network_down eq_refl)
      as (-> & _).
    reflexivity.
Defined.

Lemma register_outcome_witness :
  authAPI.register Fixtures.working_authAPI "carol" = Fulfilled "carol" ∧
  authAPI.register Fixtures.offline_authAPI "carol"
    = Rejected Fixtures.network_down ∧
  user (store (register Fixtures.working_authAPI "carol"
                 Fixtures.mount_world).1) = Some "carol" ∧
  error (store (register Fixtures.offline_authAPI "carol"
                  Fixtures.mount_world).1) = Some "network down".
Proof.
  split; [reflexivity|]. split; [reflexivity|]. split.
  - destruct (proj1 (register_outcome Fixtures.working_authAPI "carol"
                       Fixtures.mount_world) "carol" eq_refl) as (-> & _).
    reflexivity.
  - destruct (proj2 (register_outcome Fixtures.offline_authAPI "carol"
                       Fixtures.mount_world) Fixtures.network_down eq_refl)
      as (-> & _).
    reflexivity.
Defined.

Lemma session_operations_keep_invariant_witness :
  session_invariant (store Fixtures.alice_world) ∧
  session_invariant
    (store (forgotPassword Fixtures.offline_authAPI "alice@example.org"
              Fixtures.alice_world).1).
Proof.
  split; [reflexivity|].
  apply (session_operations_keep_invariant Fixtures.offline_authAPI
           "alice" "alice" "alice@example.org" Fixtures.alice_world eq_refl).
Defined.

Lemma login_then_logout_is_initial_witness :
  authAPI.login Fixtures.working_authAPI "bob" = Fulfilled "bob" ∧
  authAPI.logout Fixtures.working_authAPI = Fulfilled () ∧
  store (logout Fixtures.working_authAPI
           (login Fixtures.working_authAPI "bob"
              Fixtures.failed_session_world).1).1 = initialState.
Proof.
  split; [reflexivity|]. split; [reflexivity|].
  apply (login_then_logout_is_initial Fixtures.working_authAPI "bob"
           Fixtures.failed_session_world "bob" eq_refl eq_refl).
Defined.

Lemma failed_login_then_clearError_is_initial_witness :
  authAPI.login Fixtures.offline_authAPI "bob"
    = Rejected Fixtures.network_down ∧
  store (clearError
           (login Fixtures.offline_authAPI "bob" Fixtures.alice_world).1).1
    = initialState.
Proof.
  split; [reflexivity|].
  apply (failed_login_then_clearError_is_initial Fixtures.offline_authAPI
           "bob" Fixtures.alice_world Fixtures.network_down eq_refl).
Defined.

Lemma forgotPassword_success_keeps_session_witness :
  authAPI.forgotPassword Fixtures.working_authAPI "alice@example.org"
    = Fulfilled () ∧
  error (store (forgotPassword Fixtures.working_authAPI "alice@example.org"
                  Fixtures.failed_session_world).1) = Some "bad password".
Proof.
  split; [reflexivity|].
  destruct (forgotPassword_success_keeps_session Fixtures.working_authAPI
              "alice@example.org" Fixtures.failed_session_world eq_refl)
    as (_ & _ & -> & _).
  reflexivity.
Defined.

End AuthContextOperations.

(** ** The events reducer: how its actions compose *)

Module EventsReducerAlgebra.
Import EventsContext.

Section Lists.
Context {A : Type}.
Implicit Types (l : list A) (P matches : A → Prop).

Lemma filter_all P `{!∀ x, Decision (P x)} l :
  Forall P l → filter P l = l.
Proof.
  induction 1 as [|x l Hx _ IH]; [done|].
  by rewrite filter_cons_True, IH.
Qed.

Lemma filter_idemp P `{!∀ x, Decision (P x)} l :
  filter P (filter P l) = filter P l.
Proof. apply list_filter_filter_l. done. Qed.

Lemma replace_none matches `{!∀ x, Decision (matches x)} (new : A) l :
  Forall (λ x, ¬ matches x) l →
  (λ y, if decide (matches y) then new else y) <$> l = l.
Proof.
  induction 1 as [|x l Hx _ IH]; [done|].
  rewrite fmap_cons, IH. by rewrite decide_False.
Qed.

(** Filtering commutes with a map that does not change the verdict. *)
Lemma filter_fmap_stable P `{!∀ x, Decision (P x)} (f : A → A) l :
  (∀ x, P (f x) ↔ P x) → filter P (f <$> l) = f <$> filter P l.
Proof.
  intros Hf. induction l as [|x l IH]; [done|].
  rewrite fmap_cons, !filter_cons, IH.
  destruct (decide (P x)) as [Hx|Hx].
  - rewrite decide_True by by apply Hf. done.
  - rewrite decide_False by by rewrite Hf. done.
Qed.
End Lists.

Section Properties.
Context {EventDetails EventFilters : Type}.
Implicit Types
  (s : EventsState EventDetails EventFilters)
  (a : EventsAction EventDetails EventFilters)
  (e c x : Event EventDetails)
  (l : list (Event EventDetails))
  (i : string).

Lemma not_elem_of_ids l i : i ∉ id <$> l ↔ Forall (λ x, id x ≠ i) l.
Proof.
  rewrite Forall_forall, list_elem_of_fmap. split.
  - intros Hl x Hx Hid. apply Hl. by exists x.
  - intros Hl (x & -> & Hx). by apply (Hl x).
Qed.

Lemma replace_keeps_ids e l :
  id <$> ((λ x, if decide (id x = id e) then e else x) <$> l) = id <$> l.
Proof.
  rewrite <- list_fmap_compose. apply list_fmap_ext.
  intros _ x _. simpl. by case_decide.
Qed.

Lemma replace_idemp e l :
  (λ x, if decide (id x = id e) then e else x)
    <$> ((λ x, if decide (id x = id e) then e else x) <$> l)
  = (λ x, if decide (id x = id e) then e else x) <$> l.
Proof.
  rewrite <- list_fmap_compose. apply list_fmap_ext.
  intros _ x _. simpl. destruct (decide (id x = id e)) as [Hx|Hx].
  - by rewrite decide_True.
  - by rewrite decide_False.
Qed.

Lemma replace_replace_comm e1 e2 l :
  id e1 ≠ id e2 →
  (λ x, if decide (id x = id e2) then e2 else x)
    <$> ((λ x, if decide (id x = id e1) then e1 else x) <$> l)
  = (λ x, if decide (id x = id e1) then e1 else x)
    <$> ((λ x, if decide (id x = id e2) then e2 else x) <$> l).
Proof.
  intros Hne. rewrite <- !list_fmap_compose. apply list_fmap_ext.
  intros _ x _. simpl. repeat case_decide; congruence.
Qed.

Lemma filter_replace_comm e i l :
  id e ≠ i →
  filter (λ x, id x ≠ i)
    ((λ x, if decide (id x = id e) then e else x) <$> l)
  = (λ x, if decide (id x = id e) then e else x)
    <$> filter (λ x, id x ≠ i) l.
Proof.
  intros Hne. apply filter_fmap_stable.
  intros x. case_decide; [|done]. split; congruence.
Qed.

(** X18: UPDATE_EVENT_SUCCESS changes no id: events and myEvents list the same
    ids in the same order as before, and currentEvent keeps its id. *)
Theorem update_event_success_keeps_ids s e :
  id <$> events (eventsReducer s (UPDATE_EVENT_SUCCESS e)) = id <$> events s ∧
  id <$> myEvents (eventsReducer s (UPDATE_EVENT_SUCCESS e))
    = id <$> myEvents s ∧
  id <$> currentEvent (eventsReducer s (UPDATE_EVENT_SUCCESS e))
    = id <$> currentEvent s.
Proof.
  simpl. split_and!; try apply replace_keeps_ids.
  case_decide as Hc; [|done]. by rewrite Hc.
Qed.

(** X19: after UPDATE_EVENT_SUCCESS(e) the store holds one version of the
    event: every entry of events or myEvents with the id of e is e, and so
    is currentEvent when it has that id. *)
Theorem update_event_success_converges s e :
  (∀ x, x ∈ events (eventsReducer s (UPDATE_EVENT_SUCCESS e)) →
     id x = id e → x = e) ∧
  (∀ x, x ∈ myEvents (eventsReducer s (UPDATE_EVENT_SUCCESS e)) →
     id x = id e → x = e) ∧
  (∀ c, currentEvent (eventsReducer s (UPDATE_EVENT_SUCCESS e)) = Some c →
     id c = id e → c = e).
Proof.
  simpl. split_and!.
  - intros x (y & -> & _)%list_elem_of_fmap. by case_decide.
  - intros x (y & -> & _)%list_elem_of_fmap. by case_decide.
  - intros c Hc Hid. case_decide as Hcur; [congruence|].
    rewrite Hc in Hcur. simpl in Hcur. congruence.
Qed.

(** X20: applying UPDATE_EVENT_SUCCESS or DELETE_EVENT_SUCCESS a second time
    changes nothing. *)
Theorem update_and_delete_are_idempotent s e i :
  eventsReducer (eventsReducer s (UPDATE_EVENT_SUCCESS e))
    (UPDATE_EVENT_SUCCESS e)
    = eventsReducer s (UPDATE_EVENT_SUCCESS e) ∧
  eventsReducer (eventsReducer s (DELETE_EVENT_SUCCESS i))
    (DELETE_EVENT_SUCCESS i)
    = eventsReducer s (DELETE_EVENT_SUCCESS i).
Proof.
  split; destruct s as [evs mine cur loading err flt]; simpl; f_equal;
    try apply replace_idemp; try apply filter_idemp.
  - destruct cur as [c|]; simpl; [|done].
    destruct (decide (Some (id c) = Some (id e))); simpl.
    + by rewrite decide_True.
    + by rewrite decide_False.
  - destruct cur as [c|]; simpl; [|done].
    destruct (decide (Some (id c) = Some i)); simpl; [done|].
    by rewrite decide_False.
Qed.

(** X21: UPDATE_EVENT_SUCCESS(e) for an id the store does not hold changes
    nothing: the event is not added. *)
Theorem update_event_success_unknown_id s e :
  id e ∉ id <$> events s →
  id e ∉ id <$> myEvents s →
  id <$> currentEvent s ≠ Some (id e) →
  eventsReducer s (UPDATE_EVENT_SUCCESS e) = s.
Proof.
  intros Hevs%not_elem_of_ids Hmine%not_elem_of_ids Hcur.
  destruct s as [evs mine cur loading err flt]; simpl in *. f_equal.
  - by apply (replace_none (λ x, id x = id e)).
  - by apply (replace_none (λ x, id x = id e)).
  - by rewrite decide_False.
Qed.

(** X22: DELETE_EVENT_SUCCESS(i) for an id the store does not hold changes
    nothing. *)
Theorem delete_event_success_unknown_id s i :
  i ∉ id <$> events s →
  i ∉ id <$> myEvents s →
  id <$> currentEvent s ≠ Some i →
  eventsReducer s (DELETE_EVENT_SUCCESS i) = s.
Proof.
  intros Hevs%not_elem_of_ids Hmine%not_elem_of_ids Hcur.
  destruct s as [evs mine cur loading err flt]; simpl in *. f_equal.
  - by apply filter_all.
  - by apply filter_all.
  - by rewrite decide_False.
Qed.

(** X23: creating an event of a fresh id and deleting that id again gives back
    the state before the creation. *)
Theorem create_then_delete_restores s e :
  id e ∉ id <$> events s →
  id e ∉ id <$> myEvents s →
  id <$> currentEvent s ≠ Some (id e) →
  eventsReducer (eventsReducer s (CREATE_EVENT_SUCCESS e))
    (DELETE_EVENT_SUCCESS (id e)) = s.
Proof.
  intros Hevs%not_elem_of_ids Hmine%not_elem_of_ids Hcur.
  destruct s as [evs mine cur loading err flt]; simpl in *. f_equal.
  - rewrite filter_app, filter_all by done.
    rewrite filter_cons_False by (intros Hne; by apply Hne).
    apply app_nil_r.
  - rewrite filter_app, filter_all by done.
    rewrite filter_cons_False by (intros Hne; by apply Hne).
    apply app_nil_r.
  - by rewrite decide_False.
Qed.

(** X24: actions on different ids can be applied in either order: two updates
    of events with different ids commute, and so do an update and the
    deletion of another id. *)
Theorem actions_on_distinct_ids_commute s e1 e2 i :
  (id e1 ≠ id e2 →
     eventsReducer (eventsReducer s (UPDATE_EVENT_SUCCESS e1))
       (UPDATE_EVENT_SUCCESS e2)
     = eventsReducer (eventsReducer s (UPDATE_EVENT_SUCCESS e2))
         (UPDATE_EVENT_SUCCESS e1)) ∧
  (id e1 ≠ i →
     eventsReducer (eventsReducer s (UPDATE_EVENT_SUCCESS e1))
       (DELETE_EVENT_SUCCESS i)
     = eventsReducer (eventsReducer s (DELETE_EVENT_SUCCESS i))
         (UPDATE_EVENT_SUCCESS e1)).
Proof.
  split; intros Hne; destruct s as [evs mine cur loading err flt]; simpl;
    f_equal; try by apply replace_replace_comm.
  - destruct cur as [c|]; simpl; [|done].
    destruct (decide (Some (id c) = Some (id e1))) as [H1|H1],
      (decide (Some (id c) = Some (id e2))) as [H2|H2]; simpl;
      rewrite ?(decide_True (P := Some (id c) = _)),
        ?(decide_False (P := Some (id c) = _)),
        ?(decide_False (P := Some (id e1) = Some (id e2))),
        ?(decide_False (P := Some (id e2) = Some (id e1))) by congruence;
      congruence.
  - by apply filter_replace_comm.
  - by apply filter_replace_comm.
  - destruct cur as [c|]; simpl; [|done].
    destruct (decide (Some (id c) = Some (id e1))) as [H1|H1],
      (decide (Some (id c) = Some i)) as [H2|H2]; simpl;
      rewrite ?(decide_True (P := Some (id c) = _)),
        ?(decide_False (P := Some (id c) = _)),
        ?(decide_False (P := Some (id e1) = Some i)) by congruence;
      congruence.
Qed.

(** X25: the ids of events stay pairwise distinct under every action, provided
    a fetched list has distinct ids and a created event has a fresh id; the
    same holds of myEvents. *)
Theorem unique_ids_preserved s a :
  (match a with
   | FETCH_EVENTS_SUCCESS l => NoDup (id <$> l)
   | CREATE_EVENT_SUCCESS e => id e ∉ id <$> events s
   | _ => True
   end →
   NoDup (id <$> events s) → NoDup (id <$> events (eventsReducer s a))) ∧
  (match a with
   | FETCH_MY_EVENTS_SUCCESS l => NoDup (id <$> l)
   | CREATE_EVENT_SUCCESS e => id e ∉ id <$> myEvents s
   | _ => True
   end →
   NoDup (id <$> myEvents s) → NoDup (id <$> myEvents (eventsReducer s a))).
Proof.
  split; intros Ha Hs; destruct a; simpl; try done.
  - rewrite fmap_app. apply NoDup_app. split_and!; [done| |].
    + intros j Hj ->%list_elem_of_singleton. done.
    + apply NoDup_singleton.
  - by rewrite replace_keeps_ids.
  - eapply sublist_NoDup; [exact Hs|]. apply fmap_sublist, sublist_filter.
  - rewrite fmap_app. apply NoDup_app. split_and!; [done| |].
    + intros j Hj ->%list_elem_of_singleton. done.
    + apply NoDup_singleton.
  - by rewrite replace_keeps_ids.
  - eapply sublist_NoDup; [exact Hs|]. apply fmap_sublist, sublist_filter.
Qed.

(** X26: CREATE_EVENT_SUCCESS does not look for the id: creating an event whose
    id events already holds leaves two entries of that id. *)
Theorem create_event_success_existing_id_duplicates s e :
  id e ∈ id <$> events s →
  ¬ NoDup (id <$> events (eventsReducer s (CREATE_EVENT_SUCCESS e))).
Proof.
  intros He. simpl. rewrite fmap_app, NoDup_app.
  intros (_ & Hdisjoint & _). apply (Hdisjoint (id e) He).
  by apply list_elem_of_singleton.
Qed.

End Properties.

(** Closes a decidable statement about the fixtures by evaluation. *)
Ltac by_evaluation := apply (bool_decide_unpack _); vm_compute; exact I.

Lemma update_event_success_converges_witness :
  Fixtures.picnic_moved
    ∈ events (eventsReducer Fixtures.busy_events
                (UPDATE_EVENT_SUCCESS Fixtures.picnic_moved)) ∧
  ∀ x, x ∈ events (eventsReducer Fixtures.busy_events
                      (UPDATE_EVENT_SUCCESS Fixtures.picnic_moved)) →
       id x = "1" → x = Fixtures.picnic_moved.
Proof.
  split; [apply list_elem_of_here|].
  apply (proj1 (update_event_success_converges
                  Fixtures.busy_events Fixtures.picnic_moved)).
Defined.

Lemma update_event_success_unknown_id_witness :
  ("3" ∉ id <$> events Fixtures.tidy_events) ∧
  eventsReducer Fixtures.tidy_events (UPDATE_EVENT_SUCCESS Fixtures.concert)
    = Fixtures.tidy_events.
Proof.
  split; [by_evaluation|].
  apply update_event_success_unknown_id; by_evaluation.
Defined.

Lemma delete_event_success_unknown_id_witness :
  ("3" ∉ id <$> events Fixtures.tidy_events) ∧
  eventsReducer Fixtures.tidy_events (DELETE_EVENT_SUCCESS "3")
    = Fixtures.tidy_events.
Proof.
  split; [by_evaluation|].
  apply delete_event_success_unknown_id; by_evaluation.
Defined.

Lemma create_then_delete_restores_witness :
  events (eventsReducer Fixtures.tidy_events
            (CREATE_EVENT_SUCCESS Fixtures.concert))
    = [Fixtures.picnic; Fixtures.hackathon; Fixtures.concert] ∧
  eventsReducer
    (eventsReducer Fixtures.tidy_events (CREATE_EVENT_SUCCESS Fixtures.concert))
    (DELETE_EVENT_SUCCESS "3") = Fixtures.tidy_events.
Proof.
  split; [reflexivity|].
  apply (create_then_delete_restores Fixtures.tidy_events Fixtures.concert);
    by_evaluation.
Defined.

Lemma actions_on_distinct_ids_commute_witness :
  eventsReducer
    (eventsReducer Fixtures.busy_events
       (UPDATE_EVENT_SUCCESS Fixtures.picnic_moved))
    (DELETE_EVENT_SUCCESS "2")
  = eventsReducer
      (eventsReducer Fixtures.busy_events (DELETE_EVENT_SUCCESS "2"))
      (UPDATE_EVENT_SUCCESS Fixtures.picnic_moved).
Proof.
  apply (proj2 (actions_on_distinct_ids_commute Fixtures.busy_events
                  Fixtures.picnic_moved Fixtures.hackathon "2")).
  by_evaluation.
Defined.

Lemma unique_ids_preserved_witness :
  NoDup (id <$> events Fixtures.tidy_events) ∧
  NoDup (id <$> events (eventsReducer Fixtures.tidy_events
                          (CREATE_EVENT_SUCCESS Fixtures.concert))).
Proof.
  split; [by_evaluation|].
  apply (proj1 (unique_ids_preserved Fixtures.tidy_events
                  (CREATE_EVENT_SUCCESS Fixtures.concert)));
    by_evaluation.
Defined.

Lemma create_event_success_existing_id_duplicates_witness :
  id Fixtures.picnic_moved ∈ id <$> events Fixtures.tidy_events ∧
  ¬ NoDup (id <$> events (eventsReducer Fixtures.tidy_events
                            (CREATE_EVENT_SUCCESS Fixtures.picnic_moved))).
Proof.
  split; [by_evaluation|].
  apply create_event_success_existing_id_duplicates. by_evaluation.
Defined.

End EventsReducerAlgebra.

(** ** The event collection store: the remaining operations *)

Module EventsContextOperations.
Import EventsContext.

Section Properties.
Context {EventDetails CreateEventData PartialCreateEventData EventFilters : Type}.
Implicit Types
  (s : EventsState EventDetails EventFilters)
  (e c x : Event EventDetails)
  (api : eventsAPI.t (Event EventDetails) CreateEventData
           PartialCreateEventData EventFilters)
  (w : World (EventsState EventDetails EventFilters)
             (EventsAction EventDetails EventFilters)).

(** X9: [fetchEvents] never rejects and ends with isLoading false; myEvents,
    currentEvent and filters are what they were (the filters of the call are
    not stored). A fulfilled call replaces events and clears error; a
    rejected call keeps events and puts the message in error. *)
Theorem fetchEvents_outcome api (fs : option EventFilters) w :
  (fetchEvents api fs w).2 = Fulfilled () ∧
  isLoading (store (fetchEvents api fs w).1) = false ∧
  myEvents (store (fetchEvents api fs w).1) = myEvents (store w) ∧
  currentEvent (store (fetchEvents api fs w).1) = currentEvent (store w) ∧
  filters (store (fetchEvents api fs w).1) = filters (store w) ∧
  match eventsAPI.getEvents api fs with
  | Fulfilled l =>
      events (store (fetchEvents api fs w).1) = l ∧
      error (store (fetchEvents api fs w).1) = None
  | Rejected err =>
      events (store (fetchEvents api fs w).1) = events (store w) ∧
      error (store (fetchEvents api fs w).1) = Some (message err)
  end.
Proof.
  unfold fetchEvents. run_task.
  by destruct (eventsAPI.getEvents api fs).
Qed.

(** X10: [fetchMyEvents] never rejects. A fulfilled call replaces myEvents and
    nothing else; a rejected call dispatches nothing, leaves the whole state
    as it was, error included, and writes the failure to the console. *)
Theorem fetchMyEvents_outcome api w :
  (fetchMyEvents api w).2 = Fulfilled () ∧
  match eventsAPI.getMyEvents api with
  | Fulfilled l =>
      store (fetchMyEvents api w).1 =
        {| events := events (store w); myEvents := l;
           currentEvent := currentEvent (store w);
           isLoading := isLoading (store w); error := error (store w);
           filters := filters (store w) |} ∧
      console (fetchMyEvents api w).1 = console w
  | Rejected err =>
      store (fetchMyEvents api w).1 = store w ∧
      dispatched (fetchMyEvents api w).1 = dispatched w ∧
      console (fetchMyEvents api w).1
        = console w ++ [("Failed to fetch my events:", err)]
  end.
Proof.
  unfold fetchMyEvents. run_task.
  by destruct (eventsAPI.getMyEvents api).
Qed.

(** X11: [fetchEvent] never rejects, ends with isLoading false and leaves events,
    myEvents and filters as they were. A fulfilled call makes its result the
    currentEvent and keeps error; a rejected call keeps currentEvent and
    puts the message in error. *)
Theorem fetchEvent_outcome api (i : string) w :
  (fetchEvent api i w).2 = Fulfilled () ∧
  isLoading (store (fetchEvent api i w).1) = false ∧
  events (store (fetchEvent api i w).1) = events (store w) ∧
  myEvents (store (fetchEvent api i w).1) = myEvents (store w) ∧
  filters (store (fetchEvent api i w).1) = filters (store w) ∧
  match eventsAPI.getEvent api i with
  | Fulfilled found =>
      currentEvent (store (fetchEvent api i w).1) = found ∧
      error (store (fetchEvent api i w).1) = error (store w)
  | Rejected err =>
      currentEvent (store (fetchEvent api i w).1) = currentEvent (store w) ∧
      error (store (fetchEvent api i w).1) = Some (message err)
  end.
Proof.
  unfold fetchEvent. run_task.
  by destruct (eventsAPI.getEvent api i).
Qed.

(** X12: [updateEvent] ends with isLoading false. A fulfilled call replaces, in
    events and in myEvents, the entries that have the id of the returned
    event (the id passed to the call plays no part) and returns; a rejected
    call keeps events, myEvents and currentEvent, puts the message in error
    and rejects with the same failure. *)
Theorem updateEvent_outcome api (i : string) (data : PartialCreateEventData) w :
  isLoading (store (updateEvent api i data w).1) = false ∧
  (∀ e, eventsAPI.updateEvent api i data = Fulfilled e →
     events (store (updateEvent api i data w).1) =
       ((λ x, if decide (id x = id e) then e else x) <$> events (store w)) ∧
     myEvents (store (updateEvent api i data w).1) =
       ((λ x, if decide (id x = id e) then e else x) <$> myEvents (store w)) ∧
     dispatched (updateEvent api i data w).1 =
       dispatched w ++
         [SET_LOADING true; UPDATE_EVENT_SUCCESS e; SET_LOADING false] ∧
     (updateEvent api i data w).2 = Fulfilled ()) ∧
  (∀ err, eventsAPI.updateEvent api i data = Rejected err →
     events (store (updateEvent api i data w).1) = events (store w) ∧
     myEvents (store (updateEvent api i data w).1) = myEvents (store w) ∧
     currentEvent (store (updateEvent api i data w).1)
       = currentEvent (store w) ∧
     error (store (updateEvent api i data w).1) = Some (message err) ∧
     (updateEvent api i data w).2 = Rejected err).
Proof.
  unfold updateEvent. run_task. split_and!.
  - by destruct (eventsAPI.updateEvent api i data).
  - intros e ->. simpl. rewrite <- !(assoc_L (++)). done.
  - intros err ->. done.
Qed.

(** X13: [deleteEvent]: a fulfilled call removes the id from events and myEvents
    and leaves isLoading and error as they were; a rejected call removes
    nothing, puts the message in error, sets isLoading to false and rejects
    with the same failure. *)
Theorem deleteEvent_outcome api (i : string) w :
  (eventsAPI.deleteEvent api i = Fulfilled () →
     store (deleteEvent api i w).1
       = eventsReducer (store w) (DELETE_EVENT_SUCCESS i) ∧
     isLoading (store (deleteEvent api i w).1) = isLoading (store w) ∧
     error (store (deleteEvent api i w).1) = error (store w) ∧
     (deleteEvent api i w).2 = Fulfilled ()) ∧
  (∀ err, eventsAPI.deleteEvent api i = Rejected err →
     events (store (deleteEvent api i w).1) = events (store w) ∧
     myEvents (store (deleteEvent api i w).1) = myEvents (store w) ∧
     currentEvent (store (deleteEvent api i w).1) = currentEvent (store w) ∧
     error (store (deleteEvent api i w).1) = Some (message err) ∧
     isLoading (store (deleteEvent api i w).1) = false ∧
     (deleteEvent api i w).2 = Rejected err).
Proof.
  unfold deleteEvent. run_task. split.
  - intros ->. done.
  - intros err ->. done.
Qed.


(** X15: [joinEvent] and [leaveEvent], when the mutation call is fulfilled and
    the following getEvent call is rejected: the call rejects with the
    failure of getEvent although the mutation went through, the message goes
    to error and currentEvent stays what it was. *)
Theorem joinEvent_leaveEvent_refresh_failure api (eventId : string) w err :
  eventsAPI.getEvent api eventId = Rejected err →
  (eventsAPI.joinEvent api eventId = Fulfilled () →
     currentEvent (store (joinEvent api eventId w).1)
       = currentEvent (store w) ∧
     error (store (joinEvent api eventId w).1) = Some (message err) ∧
     isLoading (store (joinEvent api eventId w).1) = false ∧
     (joinEvent api eventId w).2 = Rejected err) ∧
  (eventsAPI.leaveEvent api eventId = Fulfilled () →
     currentEvent (store (leaveEvent api eventId w).1)
       = currentEvent (store w) ∧
     error (store (leaveEvent api eventId w).1) = Some (message err) ∧
     isLoading (store (leaveEvent api eventId w).1) = false ∧
     (leaveEvent api eventId w).2 = Rejected err).
Proof.
  intros Hget. split; intros Hcall.
  - unfold joinEvent. run_task. by rewrite Hcall, Hget.
  - unfold leaveEvent. run_task. by rewrite Hcall, Hget.
Qed.

(** X16: no successful mutation clears the error field: after a fulfilled
    [createEvent], [updateEvent] or [deleteEvent], error is what it was
    before the call, so the message of an earlier failure stays. *)
Theorem mutation_success_keeps_error api (data : CreateEventData)
    (i : string) (partial : PartialCreateEventData) w :
  (∀ e, eventsAPI.createEvent api data = Fulfilled e →
     error (store (createEvent api data w).1) = error (store w)) ∧
  (∀ e, eventsAPI.updateEvent api i partial = Fulfilled e →
     error (store (updateEvent api i partial w).1) = error (store w)) ∧
  (eventsAPI.deleteEvent api i = Fulfilled () →
     error (store (deleteEvent api i w).1) = error (store w)).
Proof.
  split_and!.
  - intros e He. unfold createEvent. run_task. by rewrite He.
  - intros e He. unfold updateEvent. run_task. by rewrite He.
  - intros He. unfold deleteEvent. run_task. by rewrite He.
Qed.

(** X17: A fulfilled [createEvent] followed by a fulfilled [deleteEvent] of the
    id of the created event gives back events, myEvents and currentEvent as
    they were, when that id was not in the store. *)
Theorem createEvent_then_deleteEvent_restores api (data : CreateEventData) w e :
  eventsAPI.createEvent api data = Fulfilled e →
  eventsAPI.deleteEvent api (id e) = Fulfilled () →
  id e ∉ id <$> events (store w) →
  id e ∉ id <$> myEvents (store w) →
  id <$> currentEvent (store w) ≠ Some (id e) →
  events (store (deleteEvent api (id e) (createEvent api data w).1).1)
    = events (store w) ∧
  myEvents (store (deleteEvent api (id e) (createEvent api data w).1).1)
    = myEvents (store w) ∧
  currentEvent (store (deleteEvent api (id e) (createEvent api data w).1).1)
    = currentEvent (store w).
Proof.
  intros Hcreate Hdelete
    Hevs%EventsReducerAlgebra.not_elem_of_ids
    Hmine%EventsReducerAlgebra.not_elem_of_ids Hcur.
  unfold deleteEvent, createEvent. run_task. rewrite Hcreate, Hdelete. simpl.
  split_and!.
  - rewrite filter_app, EventsReducerAlgebra.filter_all by done.
    rewrite filter_cons_False by (intros Hne; by apply Hne).
    apply app_nil_r.
  - rewrite filter_app, EventsReducerAlgebra.filter_all by done.
    rewrite filter_cons_False by (intros Hne; by apply Hne).
    apply app_nil_r.
  - by rewrite decide_False.
Qed.

End Properties.

Lemma updateEvent_outcome_witness :
  eventsAPI.updateEvent Fixtures.working_eventsAPI "1" "Picnic, moved indoors"
    = Fulfilled Fixtures.picnic_moved ∧
  events (store (updateEvent Fixtures.working_eventsAPI "1"
                   "Picnic, moved indoors" Fixtures.busy_world).1)
    = [Fixtures.picnic_moved; Fixtures.hackathon; Fixtures.picnic_moved] ∧
  error (store (updateEvent Fixtures.failing_eventsAPI "1"
                  "Picnic, moved indoors" Fixtures.busy_world).1)
    = Some "quota exceeded".
Proof.
  split; [reflexivity|].
  destruct (updateEvent_outcome Fixtures.working_eventsAPI "1"
              "Picnic, moved indoors" Fixtures.busy_world)
    as (_ & Hok & _).
  destruct (updateEvent_outcome Fixtures.failing_eventsAPI "1"
              "Picnic, moved indoors" Fixtures.busy_world)
    as (_ & _ & Hfail).
  split.
  - destruct (Hok Fixtures.picnic_moved eq_refl) as (-> & _). reflexivity.
  - apply (Hfail Fixtures.quota_exceeded eq_refl).
Defined.

Lemma deleteEvent_outcome_witness :
  eventsAPI.deleteEvent Fixtures.working_eventsAPI "1" = Fulfilled () ∧
  eventsAPI.deleteEvent Fixtures.failing_eventsAPI "1"
    = Rejected Fixtures.quota_exceeded ∧
  events (store (deleteEvent Fixtures.working_eventsAPI "1"
                   Fixtures.busy_world).1) = [Fixtures.hackathon] ∧
  events (store (deleteEvent Fixtures.failing_eventsAPI "1"
                   Fixtures.busy_world).1)
    = [Fixtures.picnic; Fixtures.hackathon; Fixtures.picnic].
Proof.
  split; [reflexivity|]. split; [reflexivity|]. split.
  - destruct (proj1 (deleteEvent_outcome Fixtures.working_eventsAPI "1"
                       Fixtures.busy_world) eq_refl) as (-> & _).
    reflexivity.
  - destruct (proj2 (deleteEvent_outcome Fixtures.failing_eventsAPI "1"
                       Fixtures.busy_world) Fixtures.quota_exceeded eq_refl)
      as (-> & _).
    reflexivity.
Defined.


Lemma joinEvent_leaveEvent_refresh_failure_witness :
  eventsAPI.joinEvent Fixtures.refresh_failing_eventsAPI "2" = Fulfilled () ∧
  eventsAPI.getEvent Fixtures.refresh_failing_eventsAPI "2"
    = Rejected Fixtures.network_down ∧
  (joinEvent Fixtures.refresh_failing_eventsAPI "2" Fixtures.busy_world).2
    = Rejected Fixtures.network_down ∧
  error (store (leaveEvent Fixtures.refresh_failing_eventsAPI "2"
                  Fixtures.busy_world).1) = Some "network down".
Proof.
  split; [reflexivity|]. split; [reflexivity|].
  destruct (joinEvent_leaveEvent_refresh_failure
              Fixtures.refresh_failing_eventsAPI "2" Fixtures.busy_world
              Fixtures.network_down eq_refl) as (Hjoin & Hleave).
  split.
  - apply (Hjoin eq_refl).
  - apply (Hleave eq_refl).
Defined.

Lemma mutation_success_keeps_error_witness :
  eventsAPI.createEvent Fixtures.working_eventsAPI "Concert"
    = Fulfilled Fixtures.concert ∧
  error (store (createEvent Fixtures.working_eventsAPI "Concert"
                  Fixtures.stale_error_world).1) = Some "quota exceeded" ∧
  error (store (deleteEvent Fixtures.working_eventsAPI "1"
                  Fixtures.stale_error_world).1) = Some "quota exceeded".
Proof.
  split; [reflexivity|].
  destruct (mutation_success_keeps_error Fixtures.working_eventsAPI
              "Concert" "1" "Picnic" Fixtures.stale_error_world)
    as (Hcreate & _ & Hdelete).
  split.
  - apply (Hcreate Fixtures.concert eq_refl).
  - apply (Hdelete eq_refl).
Defined.

Lemma createEvent_then_deleteEvent_restores_witness :
  eventsAPI.createEvent Fixtures.working_eventsAPI "Concert"
    = Fulfilled Fixtures.concert ∧
  events (store (createEvent Fixtures.working_eventsAPI "Concert"
                   Fixtures.stale_error_world).1)
    = [Fixtures.picnic; Fixtures.hackathon; Fixtures.concert] ∧
  events (store (deleteEvent Fixtures.working_eventsAPI "3"
                   (createEvent Fixtures.working_eventsAPI "Concert"
                      Fixtures.stale_error_world).1).1)
    = [Fixtures.picnic; Fixtures.hackathon].
Proof.
  split; [reflexivity|]. split; [reflexivity|].
  apply (createEvent_then_deleteEvent_restores Fixtures.working_eventsAPI
           "Concert" Fixtures.stale_error_world Fixtures.concert
           eq_refl eq_refl);
    EventsReducerAlgebra.by_evaluation.
Defined.

End EventsContextOperations.
